(** * KiCad to EasyEDA footprint converter: a shallow embedding

    The development follows [kicad_to_easyeda_footprint_converter.py]:
    the unit converter [mm_to_easyeda], the extractor
    [parse_kicad_footprint] (regular expressions over the text of a
    [.kicad_mod] file), the emitter and assembler [convert_to_easyeda], and
    the derivation of the output path in [main].

    Numbers.  A Python [float] is modelled by an exact rational ([Q]);
    the two sentinels [float('inf')] and [float('-inf')] of the bounding box
    live in the extended type [xnum].  Binary rounding error and overflow of
    IEEE doubles are outside the model.  [round(v, 2)] is Python's rounding:
    to the nearest hundredth, a tie going to the even hundredth.

    Text.  A Python [str] is a [string]; the character classes of the
    patterns are given on the ASCII range. *)

From Stdlib Require Import ZArith QArith Qround Qabs Lia Lqa List Bool.
From Stdlib Require Import Ascii String DecimalString.
From Stdlib Require PrimFloat SpecFloat FloatOps DecimalNat.
Import ListNotations.

Open Scope Q_scope.

(** ** Numbers *)

(** [round(v)] to an integer, ties to even. *)
Definition round_half_even (v : Q) : Z :=
  let f := Qfloor v in
  match Qcompare (v - inject_Z f) (1 # 2) with
  | Lt => f
  | Gt => (f + 1)%Z
  | Eq => if Z.even f then f else (f + 1)%Z
  end.


(** Python's [round(v, 2)]. *)
Definition py_round2 (v : Q) : Q := round_half_even (v * 100) # 100.

(** [mm_to_easyeda]: [round(mm * 39.3701 / 10, 2)]. *)
Definition mm_to_easyeda (mm : Q) : Q := py_round2 (mm * (393701 # 10000) / 10).


(** The converter on IEEE doubles, to check the rational model at the
    inputs the statements use: the product and the quotient are those of
    binary64, and [round(v, 2)] rounds the exact value of the double [v]. *)
Module Doubles.

Import PrimFloat SpecFloat FloatOps.

(** The exact value of a finite double. *)
Definition double_value (v : float) : option Q :=
  match Prim2SF v with
  | S754_zero _ => Some 0
  | S754_finite s m e =>
      let n := if s then Z.neg m else Z.pos m in
      Some (match e with
            | Z.neg p => Qmake n (Pos.pow 2 p)
            | _ => inject_Z (n * 2 ^ e)
            end)
  | _ => None
  end.

(** The double [mm * 39.3701 / 10]; the constant is the double nearest to
    39.3701. *)
#[warning="-inexact-float"]
Definition scaled (mm : float) : float := (mm * 39.3701 / 10)%float.

(** [float(s)] for the numerals 500, 1, 0, 0.001 and 1.7. *)
#[warning="-inexact-float"]
Definition samples : list float := [500; 1; 0; 0.001; 1.7]%float.

(** [mm_to_easyeda] on a double: the hundredth nearest to the double
    [mm * 39.3701 / 10]. *)
Definition mm_to_easyeda_double (mm : float) : option Q :=
  option_map py_round2 (double_value (scaled mm)).

End Doubles.

(** [a < b] and [a > b] on floats, as booleans. *)
Definition Qltb (a b : Q) : bool := negb (Qle_bool b a).

(** [int(v)] on a finite float: truncation toward zero. *)
Definition Qtrunc (v : Q) : Z := Z.quot (Qnum v) (Zpos (Qden v)).

(** A float that may be one of the infinities (or the NaN their sum gives). *)
Inductive xnum : Type :=
| Fin (q : Q)
| PInf
| NInf
| NaN.

(** [a < b]. *)
Definition xltb (a b : xnum) : bool :=
  match a, b with
  | Fin p, Fin q => Qltb p q
  | Fin _, PInf => true
  | NInf, Fin _ => true
  | NInf, PInf => true
  | _, _ => false
  end.

(** [min(a, b)] and [max(a, b)] of two arguments: the first one unless the
    second is strictly smaller (larger). *)
Definition py_min (a b : xnum) : xnum := if xltb b a then b else a.
Definition py_max (a b : xnum) : xnum := if xltb a b then b else a.

(** [a == float('inf')]. *)
Definition is_pinf (a : xnum) : bool :=
  match a with PInf => true | _ => false end.

Definition xadd (a b : xnum) : xnum :=
  match a, b with
  | Fin p, Fin q => Fin (p + q)
  | NaN, _ | _, NaN => NaN
  | PInf, NInf | NInf, PInf => NaN
  | PInf, _ | _, PInf => PInf
  | NInf, _ | _, NInf => NInf
  end.

(** [a / 2]. *)
Definition xhalf (a : xnum) : xnum :=
  match a with Fin p => Fin (p / 2) | _ => a end.

(** [int(a)]: [OverflowError] on an infinity, [ValueError] on a NaN. *)
Definition xint (a : xnum) : option Z :=
  match a with Fin p => Some (Qtrunc p) | _ => None end.

Close Scope Q_scope.
Open Scope string_scope.

(** ** Text *)

(** [s[a:b]] for [0 <= a]: the slice stops at the end of the text. *)
Definition py_slice (s : string) (a b : nat) : string := substring a (b - a) s.

(** [s[k:]]. *)
Fixpoint drop (k : nat) (s : string) : string :=
  match k, s with
  | S k', String _ s' => drop k' s'
  | _, _ => s
  end.

(** [pat in s]. *)
Fixpoint contains (pat s : string) : bool :=
  prefix pat s ||
  match s with
  | EmptyString => false
  | String _ s' => contains pat s'
  end.

(** [s.find(pat)]: the position of the first occurrence, [None] for -1. *)
Fixpoint find (pat s : string) : option nat :=
  if prefix pat s then Some 0
  else
    match s with
    | EmptyString => None
    | String _ s' => option_map S (find pat s')
    end.

(** [s.replace(old, new)] for a non-empty [old]: the occurrences of [old]
    are taken from left to right and do not overlap; [skip] counts the
    characters of an occurrence still to be passed over. *)
Fixpoint replace_from (old new : string) (skip : nat) (s : string) : string :=
  match s with
  | EmptyString => EmptyString
  | String c s' =>
      match skip with
      | S k => replace_from old new k s'
      | O =>
          if prefix old s
          then new ++ replace_from old new (length old - 1) s'
          else String c (replace_from old new 0 s')
      end
  end.

Definition replace (old new s : string) : string := replace_from old new 0 s.

(** [str(n)] for an [int]. *)
Definition str_int (n : Z) : string := NilZero.string_of_int (Z.to_int n).
Definition str_nat (n : nat) : string := NilZero.string_of_uint (Nat.to_uint n).

(** ** Regular expressions

    Every pattern of the program is a sequence of character classes, each
    matched once or under one of [?], [*], [+]; a capturing group encloses
    exactly one such item.  Matching is Python's: an item takes as many
    characters as it can and gives them back one at a time while the rest of
    the pattern fails. *)
Module Re.

Inductive quant : Type := Once | Opt | Star | Plus.

Record atom : Type := Atom { cls : ascii -> bool; rep : quant; cap : bool }.

Definition regex : Type := list atom.

Definition code (c : ascii) : nat := nat_of_ascii c.

(** [\s] on the ASCII range: TAB to CR, FS to US, and the space. *)
Definition is_space (c : ascii) : bool :=
  (((9 <=? code c) && (code c <=? 13)) || ((28 <=? code c) && (code c <=? 32)))%nat.

(** [\d]. *)
Definition is_digit (c : ascii) : bool := ((48 <=? code c) && (code c <=? 57))%nat.

(** [\w]. *)
Definition is_word (c : ascii) : bool :=
  (is_digit c || ((65 <=? code c) && (code c <=? 90))
   || ((97 <=? code c) && (code c <=? 122)))%nat || Ascii.eqb c "_".

(** [[-\d.]]. *)
Definition is_num (c : ascii) : bool :=
  Ascii.eqb c "-" || is_digit c || Ascii.eqb c ".".

Definition is_not (x : ascii) (c : ascii) : bool := negb (Ascii.eqb c x).

(** A literal, character by character. *)
Fixpoint lit (s : string) : regex :=
  match s with
  | EmptyString => []
  | String c s' => Atom (Ascii.eqb c) Once false :: lit s'
  end.

(** The double quote (written [\x22] in the comments below) and the
    pattern that matches it. *)
Definition dquote : ascii := "034"%char.
Definition quote : regex := [Atom (Ascii.eqb dquote) Once false].

Definition spaces1 : regex := [Atom is_space Plus false].
(** [\s*\n?\s*] *)
Definition gap : regex :=
  [Atom is_space Star false; Atom (Ascii.eqb "010") Opt false;
   Atom is_space Star false].
(** [([-\d.]+)] *)
Definition number : regex := [Atom is_num Plus true].

(** Length of the longest prefix of [s] inside the class. *)
Fixpoint run_length (p : ascii -> bool) (s : string) : nat :=
  match s with
  | String c s' => if p c then S (run_length p s') else 0
  | EmptyString => 0
  end.

(** The item takes [k] characters, then [k - 1], ... down to [lo], until the
    rest of the pattern ([cont]) matches. *)
Fixpoint backoff (k lo : nat) (s : string)
    (cont : string -> option (list string * nat))
    : option (nat * (list string * nat)) :=
  if (k <? lo)%nat then None
  else
    match cont (drop k s) with
    | Some r => Some (k, r)
    | None =>
        match k with
        | O => None
        | S k' => backoff k' lo s cont
        end
    end.

(** Bounds on the number of characters an item takes out of a run. *)
Definition bounds (q : quant) (run : nat) : nat * nat :=
  match q with
  | Once => (1, Nat.min 1 run)
  | Opt => (0, Nat.min 1 run)
  | Star => (0, run)
  | Plus => (1, run)
  end.

(** [re.match] at the start of [s]: the captured groups and the length of
    the match. *)
Fixpoint match_here (r : regex) (s : string) : option (list string * nat) :=
  match r with
  | [] => Some ([], 0)
  | a :: r' =>
      let (lo, hi) := bounds (rep a) (run_length (cls a) s) in
      match backoff hi lo s (match_here r') with
      | Some (k, (gs, n)) =>
          Some (if cap a then substring 0 k s :: gs else gs, k + n)
      | None => None
      end
  end.

(** A match object: [m.start()], [m.end()] and the groups 1, 2, ... *)
Record re_match : Type :=
  Match { m_start : nat; m_end : nat; m_groups : list string }.

(** [m.group(i)], [i >= 1]. *)
Definition group (m : re_match) (i : nat) : string :=
  nth (i - 1) (m_groups m) EmptyString.

(** [re.finditer]: the matches from left to right, not overlapping.  The
    patterns of the program begin with a literal, so no match is empty. *)
Fixpoint finditer_from (r : regex) (pos skip : nat) (s : string)
    : list re_match :=
  match s with
  | EmptyString => []
  | String _ s' =>
      match skip with
      | S k => finditer_from r (S pos) k s'
      | O =>
          match match_here r s with
          | Some (gs, S n) =>
              Match pos (pos + S n) gs :: finditer_from r (S pos) n s'
          | _ => finditer_from r (S pos) 0 s'
          end
      end
  end.

Definition finditer (r : regex) (s : string) : list re_match :=
  finditer_from r 0 0 s.

(** [re.search]: the first match. *)
Definition search (r : regex) (s : string) : option re_match :=
  hd_error (finditer r s).

End Re.

(** ** Extractor *)

(** [footprint\s+\x22([^\x22]+)\x22] *)
Definition name_pattern : Re.regex :=
  (Re.lit "footprint" ++ Re.spaces1 ++ Re.quote
   ++ [Re.Atom (Re.is_not Re.dquote) Re.Plus true] ++ Re.quote)%list.

(** [\(descr\s+\x22([^\x22]+)\x22\)] *)
Definition desc_pattern : Re.regex :=
  (Re.lit "(descr" ++ Re.spaces1 ++ Re.quote
   ++ [Re.Atom (Re.is_not Re.dquote) Re.Plus true] ++ Re.quote
   ++ Re.lit ")")%list.

(** [\(pad\s+\x22([^\x22]+)\x22\s+(\w+)\s+(\w+)\s*\n?\s*
     \(at\s+([-\d.]+)\s+([-\d.]+)[^)]*\)\s*\n?\s*
     \(size\s+([-\d.]+)\s+([-\d.]+)\)\s*\n?\s*\(drill\s+([-\d.]+)\)] *)
Definition pad_pattern : Re.regex :=
  (Re.lit "(pad" ++ Re.spaces1 ++ Re.quote
   ++ [Re.Atom (Re.is_not Re.dquote) Re.Plus true] ++ Re.quote
   ++ Re.spaces1 ++ [Re.Atom Re.is_word Re.Plus true]
   ++ Re.spaces1 ++ [Re.Atom Re.is_word Re.Plus true]
   ++ Re.gap
   ++ Re.lit "(at" ++ Re.spaces1 ++ Re.number ++ Re.spaces1 ++ Re.number
   ++ [Re.Atom (Re.is_not ")") Re.Star false] ++ Re.lit ")"
   ++ Re.gap
   ++ Re.lit "(size" ++ Re.spaces1 ++ Re.number ++ Re.spaces1 ++ Re.number
   ++ Re.lit ")"
   ++ Re.gap
   ++ Re.lit "(drill" ++ Re.spaces1 ++ Re.number ++ Re.lit ")")%list.

(** [\(fp_circle\s*\n?\s*\(center\s+([-\d.]+)\s+([-\d.]+)\)\s*\n?\s*
     \(end\s+([-\d.]+)\s+([-\d.]+)\)] *)
Definition circle_pattern : Re.regex :=
  (Re.lit "(fp_circle" ++ Re.gap
   ++ Re.lit "(center" ++ Re.spaces1 ++ Re.number ++ Re.spaces1 ++ Re.number
   ++ Re.lit ")"
   ++ Re.gap
   ++ Re.lit "(end" ++ Re.spaces1 ++ Re.number ++ Re.spaces1 ++ Re.number
   ++ Re.lit ")")%list.

(** Value of a string of decimal digits ([None] on any other character). *)
Fixpoint digits_value (acc : Z) (s : string) : option Z :=
  match s with
  | EmptyString => Some acc
  | String c s' =>
      if Re.is_digit c
      then digits_value (10 * acc + Z.of_nat (Re.code c - 48)) s'
      else None
  end.

(** Splits at the first dot: the text before it and, when there is a dot,
    the text after it. *)
Fixpoint split_dot (s : string) : string * option string :=
  match s with
  | EmptyString => (EmptyString, None)
  | String c s' =>
      if Ascii.eqb c "."
      then (EmptyString, Some s')
      else let (a, b) := split_dot s' in (String c a, b)
  end.

Fixpoint pow10 (n : nat) : positive :=
  match n with
  | O => 1%positive
  | S k => (10 * pow10 k)%positive
  end.

(** [float(s)] on an unsigned numeral: digits with at most one dot and at
    least one digit. *)
Definition float_unsigned (s : string) : option Q :=
  match split_dot s with
  | (ip, None) =>
      match ip with
      | EmptyString => None
      | _ => option_map inject_Z (digits_value 0 ip)
      end
  | (ip, Some fp) =>
      match length ip + length fp with
      | O => None
      | _ =>
          match digits_value 0 (ip ++ fp) with
          | Some n => Some (Qmake n (pow10 (length fp)))
          | None => None
          end
      end
  end.

(** [float(s)] for a text made of the characters of [[-\d.]]: an optional
    minus sign and an unsigned numeral; [None] is [ValueError]. *)
Definition py_float (s : string) : option Q :=
  match s with
  | String c s' =>
      if Ascii.eqb c "-" then option_map Qopp (float_unsigned s')
      else float_unsigned s
  | EmptyString => float_unsigned s
  end.

(** ** Data model *)

(** A pad of the parse result: the dictionary built for each match of the
    pad pattern; the key ['layers'] may be absent. *)
Record pad : Type := Pad {
  pad_number : string;
  pad_type : string;
  pad_shape : string;
  pad_x : Q;
  pad_y : Q;
  pad_width : Q;
  pad_height : Q;
  pad_drill : Q;
  pad_layers : option (list string)
}.

Record circle : Type := Circle {
  circle_cx : Q;
  circle_cy : Q;
  circle_radius : Q;
  circle_layer : string
}.

(** [footprint_data]; ['texts'] is never filled. *)
Record footprint : Type := Footprint {
  fp_name : string;
  fp_description : string;
  fp_pads : list pad;
  fp_circles : list circle;
  fp_texts : list string
}.

(** The layer check after a pad match: the window
    [kicad_content[match.start():match.end()+200]]. *)
Definition layer_window (content : string) (m : Re.re_match) : string :=
  py_slice content (Re.m_start m) (Re.m_end m + 200).

Definition layers_of_match (content : string) (m : Re.re_match)
    : option (list string) :=
  if contains "F.Cu" (layer_window content m) then Some ["F.Cu"]
  else if contains "B.Cu" (layer_window content m) then Some ["B.Cu"]
  else if contains "*.Cu" (layer_window content m) then Some ["*.Cu"]
  else None.

(** The body of the pad loop; [None] when a [float(...)] raises. *)
Definition pad_of_match (content : string) (m : Re.re_match) : option pad :=
  match py_float (Re.group m 4), py_float (Re.group m 5),
        py_float (Re.group m 6), py_float (Re.group m 7),
        py_float (Re.group m 8) with
  | Some x, Some y, Some w, Some h, Some d =>
      Some (Pad (Re.group m 1) (Re.group m 2) (Re.group m 3) x y w h d
                (layers_of_match content m))
  | _, _, _, _, _ => None
  end.

(** Runs a loop body over the matches, stopping at the first exception. *)
Fixpoint collect {A B : Type} (f : A -> option B) (l : list A)
    : option (list B) :=
  match l with
  | [] => Some []
  | a :: l' =>
      match f a with
      | Some b => option_map (cons b) (collect f l')
      | None => None
      end
  end.

Definition parse_pads (content : string) : option (list pad) :=
  collect (pad_of_match content) (Re.finditer pad_pattern content).

Section Extractor.

(** [v ** 0.5] is not rational: the extractor is parametric in it. *)
Variable float_sqrt : Q -> Q.

Definition circle_of_match (m : Re.re_match) : option circle :=
  match py_float (Re.group m 1), py_float (Re.group m 2),
        py_float (Re.group m 3), py_float (Re.group m 4) with
  | Some cx, Some cy, Some ex, Some ey =>
      Some (Circle cx cy
              (float_sqrt ((ex - cx) * (ex - cx) + (ey - cy) * (ey - cy))%Q)
              "Cmts.User")
  | _, _, _, _ => None
  end.

Definition parse_circles (content : string) : option (list circle) :=
  collect circle_of_match (Re.finditer circle_pattern content).

(** [parse_kicad_footprint]; [None] when a [float(...)] raises
    [ValueError]. *)
Definition parse_kicad_footprint (kicad_content : string)
    : option footprint :=
  let name :=
    match Re.search name_pattern kicad_content with
    | Some m => Re.group m 1
    | None => EmptyString
    end in
  let description :=
    match Re.search desc_pattern kicad_content with
    | Some m => Re.group m 1
    | None => EmptyString
    end in
  match parse_pads kicad_content with
  | Some pads =>
      match parse_circles kicad_content with
      | Some circles => Some (Footprint name description pads circles [])
      | None => None
      end
  | None => None
  end.

End Extractor.

(** ** Emitter and assembler *)

(** A shape token.  The code writes it as text, the fields joined by [~]:
    [PAD~shape~x~y~width~height~layer~~number~holeradius~~0~id~~~plated~0]
    and [CIRCLE~cx~cy~r~strokewidth~layer~id~0]; the fields that vary are
    kept here, in that order. *)
Inductive shape_token : Type :=
| PAD (shape_type : string) (x y width height : Q) (layer_id : string)
      (number : string) (hole_radius : Q) (gge : string) (plated : string)
| CIRCLE (cx cy r stroke_width : Q) (layer_id : string) (gge : string).

Definition token_id (t : shape_token) : string :=
  match t with
  | PAD _ _ _ _ _ _ _ _ g _ => g
  | CIRCLE _ _ _ _ _ g => g
  end.

(** [f"gge{gge_counter}"] *)
Definition gge_id (n : nat) : string := "gge" ++ str_nat n.

Definition layer_map : list (string * string) :=
  [("F.Cu", "1"); ("B.Cu", "2"); ("*.Cu", "11"); ("F.SilkS", "3");
   ("Cmts.User", "12")].

(** [d.get(key, default)] *)
Fixpoint dict_get (d : list (string * string)) (key default : string)
    : string :=
  match d with
  | [] => default
  | (k, v) :: d' => if String.eqb k key then v else dict_get d' key default
  end.

(** [key in l] for a list of strings. *)
Definition str_in (key : string) (l : list string) : bool :=
  existsb (String.eqb key) l.

(** [pad.get('layers', [])] *)
Definition layers_or_empty (p : pad) : list string :=
  match pad_layers p with
  | Some l => l
  | None => []
  end.

(** The local state of [convert_to_easyeda]. *)
Record conv_state : Type := State {
  shapes : list shape_token;
  gge_counter : nat;
  min_x : xnum;
  max_x : xnum;
  min_y : xnum;
  max_y : xnum
}.

Definition init_state : conv_state := State [] 1 PInf NInf PInf NInf.

(** [shapes.append(f"...gge{gge_counter}...")] and [gge_counter += 1]. *)
Definition emit (st : conv_state) (tok : string -> shape_token)
    : conv_state :=
  State (shapes st ++ [tok (gge_id (gge_counter st))])
        (S (gge_counter st))
        (min_x st) (max_x st) (min_y st) (max_y st).

(** The four [min]/[max] updates, for a centre and two half extents. *)
Definition extend (st : conv_state) (x y hw hh : Q) : conv_state :=
  State (shapes st) (gge_counter st)
        (py_min (min_x st) (Fin (x - hw)))
        (py_max (max_x st) (Fin (x + hw)))
        (py_min (min_y st) (Fin (y - hh)))
        (py_max (max_y st) (Fin (y + hh))).

(** "Determine pad shape". *)
Definition shape_type_of (p : pad) : string :=
  if String.eqb (pad_shape p) "circle" then "ELLIPSE"
  else if String.eqb (pad_shape p) "rect" then "RECT"
  else if String.eqb (pad_shape p) "oval" then "OVAL"
  else "ELLIPSE".

(** "Determine layer": the layer id, the plating flag and the drill as
    they stand after the [if]/[elif]/[else]; [drill] is the converted
    drill. *)
Definition resolve_layer (p : pad) (drill : Q) : string * string * Q :=
  if String.eqb (pad_type p) "thru_hole" then ("11", "Y", drill)
  else if String.eqb (pad_type p) "connect" then
    ((if str_in "F.Cu" (layers_or_empty p) then "1"
      else if str_in "B.Cu" (layers_or_empty p) then "2"
      else "1"),
     "N", 0%Q)
  else ("11", "Y", drill).

(** The drill of a pad after "Determine layer". *)
Definition effective_drill (p : pad) : Q :=
  snd (resolve_layer p (mm_to_easyeda (pad_drill p))).

(** One turn of the inner loop over the layers of a [connect] pad. *)
Definition emit_layer (shape_type : string) (x y width height : Q)
    (number : string) (st : conv_state) (layer_name : string)
    : conv_state :=
  if str_in layer_name ["F.Cu"; "B.Cu"]
  then emit st (fun g =>
         PAD shape_type x y width height (dict_get layer_map layer_name "1")
             number 0%Q g "N")
  else st.

(** One turn of the loop over the pads. *)
Definition convert_pad (st : conv_state) (p : pad) : conv_state :=
  let x := mm_to_easyeda (pad_x p) in
  let y := mm_to_easyeda (pad_y p) in
  let width := mm_to_easyeda (pad_width p) in
  let height := mm_to_easyeda (pad_height p) in
  let drill := mm_to_easyeda (pad_drill p) in
  let st := extend st x y (width / 2)%Q (height / 2)%Q in
  let shape_type := shape_type_of p in
  let '(layer_id, plated, drill) := resolve_layer p drill in
  let st :=
    if Qltb 0%Q drill && String.eqb (pad_type p) "thru_hole"
    then emit st (fun g =>
           PAD shape_type x y width height layer_id (pad_number p)
               (drill / 2)%Q g plated)
    else st in
  if String.eqb (pad_type p) "connect"
  then fold_left (emit_layer shape_type x y width height (pad_number p))
                 (layers_or_empty p) st
  else st.

(** [0.15 * 3.937] *)
Definition stroke_width_const : Q := ((15 # 100) * (3937 # 1000))%Q.

(** One turn of the loop over the circles. *)
Definition convert_circle (st : conv_state) (c : circle) : conv_state :=
  let cx := mm_to_easyeda (circle_cx c) in
  let cy := mm_to_easyeda (circle_cy c) in
  let r := mm_to_easyeda (circle_radius c) in
  let st := extend st cx cy r r in
  emit st (fun g => CIRCLE cx cy r stroke_width_const "12" g).

(** The state after both loops. *)
Definition run_loops (fd : footprint) : conv_state :=
  fold_left convert_circle (fp_circles fd)
            (fold_left convert_pad (fp_pads fd) init_state).

(** [origin_x] and [origin_y]. *)
Definition origin (st : conv_state) : xnum * xnum :=
  if is_pinf (min_x st) then (Fin 4000, Fin 3000)
  else
    let center_x := xhalf (xadd (min_x st) (max_x st)) in
    let center_y := xhalf (xadd (min_y st) (max_y st)) in
    (xadd (Fin 4000) center_x, xadd (Fin 3000) center_y).

Record c_para_t : Type := CPara {
  package : string;
  pre : string;
  Contributor : string
}.

Record head_t : Type := Head {
  docType : string;
  editorVersion : string;
  newgId : bool;
  c_para : c_para_t;
  hasIdFlag : bool;
  head_x : Z;
  head_y : Z
}.

Record easyeda_json : Type := Doc {
  head : head_t;
  canvas : string;
  shape : list shape_token;
  layers : list string;
  objects : list string
}.

Definition canvas_of (ox oy : Z) : string :=
  "CA~2000~2000~#000000~yes~#FFFFFF~10~1000~1000~line~0.5~mil~1~45~visible~0.5~"
  ++ str_int ox ++ "~" ++ str_int oy.

Definition layer_table : list string :=
  ["1~TopLayer~#FF0000~true~true~true~";
   "2~BottomLayer~#0000FF~true~false~true~";
   "3~TopSilkLayer~#FFCC00~true~false~true~";
   "4~BottomSilkLayer~#66CC33~true~false~true~";
   "5~TopPasteMaskLayer~#808080~true~false~true~";
   "6~BottomPasteMaskLayer~#800000~true~false~true~";
   "7~TopSolderMaskLayer~#800080~true~false~true~0.3";
   "8~BottomSolderMaskLayer~#AA00FF~true~false~true~0.3";
   "9~Ratlines~#6464FF~false~false~true~";
   "10~BoardOutLine~#FF00FF~true~true~true~";
   "11~Multi-Layer~#C0C0C0~true~false~true~";
   "12~Document~#FFFFFF~true~false~true~";
   "13~TopAssembly~#33CC99~false~false~false~";
   "14~BottomAssembly~#5555FF~false~false~false~";
   "15~Mechanical~#33CC99~false~false~false~"].

Definition object_table : list string :=
  ["All~true~false"; "Component~true~true"; "Prefix~true~true";
   "Name~true~false"; "Track~true~true"; "Pad~true~true"; "Via~true~true";
   "Hole~true~true"; "Copper_Area~true~true"; "Circle~true~true";
   "Arc~true~true"; "Solid_Region~true~true"; "Text~true~true";
   "Dimension~true~true"; "Rect~true~true"].

(** The header, for the origin [(ox, oy)]. *)
Definition head_of (fd : footprint) (ox oy : Z) : head_t :=
  Head "4" "6.5.0" true (CPara (fp_name fd) "FP?" "KiCad Converter") true ox oy.

(** [convert_to_easyeda]; [None] when [int(origin_x)] or [int(origin_y)]
    raises. *)
Definition convert_to_easyeda (footprint_data : footprint)
    : option easyeda_json :=
  let st := run_loops footprint_data in
  let (origin_x, origin_y) := origin st in
  match xint origin_x, xint origin_y with
  | Some ox, Some oy =>
      Some (Doc (head_of footprint_data ox oy)
                (canvas_of ox oy)
                (shapes st)
                layer_table
                object_table)
  | _, _ => None
  end.

(** ** Command line *)

(** The two paths [main] works with: [input_file] and [output_file];
    [None] is the usage message and [sys.exit(1)]. *)
Definition main_paths (argv : list string) : option (string * string) :=
  match argv with
  | _ :: input_file :: rest =>
      Some (input_file,
            match rest with
            | output :: _ => output
            | [] => replace ".kicad_mod" "_easyeda.json" input_file
            end)
  | _ => None
  end.


(** ** Notions used by the statements *)

(** The fields of a token the statements speak about. *)
Definition is_pad_token (t : shape_token) : bool :=
  match t with PAD _ _ _ _ _ _ _ _ _ _ => true | CIRCLE _ _ _ _ _ _ => false end.

Definition token_hole_radius (t : shape_token) : option Q :=
  match t with
  | PAD _ _ _ _ _ _ _ r _ _ => Some r
  | CIRCLE _ _ _ _ _ _ => None
  end.

(** The bounding box held by a state: [(min_x, max_x, min_y, max_y)]. *)
Definition bbox (st : conv_state) : xnum * xnum * xnum * xnum :=
  (min_x st, max_x st, min_y st, max_y st).




Definition lo_x (b : Q * Q * Q * Q) : Q := fst (fst (fst b)).
Definition hi_x (b : Q * Q * Q * Q) : Q := snd (fst (fst b)).
Definition lo_y (b : Q * Q * Q * Q) : Q := snd (fst b).
Definition hi_y (b : Q * Q * Q * Q) : Q := snd b.

(** A bounding box grown by one extent. *)
Definition box_join (bb : xnum * xnum * xnum * xnum) (b : Q * Q * Q * Q)
    : xnum * xnum * xnum * xnum :=
  let '(a1, a2, a3, a4) := bb in
  (py_min a1 (Fin (lo_x b)), py_max a2 (Fin (hi_x b)),
   py_min a3 (Fin (lo_y b)), py_max a4 (Fin (hi_y b))).

(** [pat] occurs in [s]. *)
Definition occurs (pat s : string) : Prop :=
  exists u v : string, s = u ++ pat ++ v.

(** No character of [s] is a minus sign. *)
Fixpoint no_minus (s : string) : bool :=
  match s with
  | EmptyString => true
  | String c s' => negb (Ascii.eqb c "-") && no_minus s'
  end.

(** [st'] is [st] after the tokens [toks] were emitted: they are appended in
    order, the counter advances by their number, and their identifiers are
    the consecutive [gge<N>] from the counter of [st] on. *)
Definition adds (st st' : conv_state) (toks : list shape_token) : Prop :=
  shapes st' = (shapes st ++ toks)%list /\
  gge_counter st' = gge_counter st + List.length toks /\
  map token_id toks = map gge_id (seq (gge_counter st) (List.length toks)).



(** Follows the spec's words ("the 200 characters of source text
    immediately following the match end are inspected"), to be compared with
    [layers_of_match]. *)
Definition layers_after_match (content : string) (m : Re.re_match)
    : option (list string) :=
  let w := py_slice content (Re.m_end m) (Re.m_end m + 200) in
  if contains "F.Cu" w then Some ["F.Cu"]
  else if contains "B.Cu" w then Some ["B.Cu"]
  else if contains "*.Cu" w then Some ["*.Cu"]
  else None.

(** [s.endswith(suffix)] *)
Definition ends_with (suffix s : string) : bool :=
  (length suffix <=? length s)%nat
  && String.eqb (drop (length s - length suffix) s) suffix.

(** Follows the spec's words ("derived by replacing the input's format
    extension with _easyeda.json"), to be compared with the path of
    [main_paths]; [None] when the path has no such extension. *)
Definition replace_extension (path : string) : option string :=
  if ends_with ".kicad_mod" path
  then Some (substring 0 (length path - length ".kicad_mod") path
             ++ "_easyeda.json")
  else None.

(** The double quote, to write sample texts. *)
Definition DQ : string := String Re.dquote EmptyString.

(** A pad whose number reads F.Cu, on the back layer. *)
Definition text_pad_named_like_layer : string :=
  "(pad " ++ DQ ++ "F.Cu" ++ DQ
  ++ " connect rect (at 0 0) (size 1 1) (drill 0) (layers B.Cu))".

(** A pad with a negative width and a negative drill. *)
Definition text_pad_negative : string :=
  "(pad " ++ DQ ++ "1" ++ DQ
  ++ " smd rect (at 0 0) (size -1.7 1.7) (drill -0.5))".


(** ** Notions used by the further statements *)




(** Every character of [s] is in the class [p]. *)
Fixpoint all_chars (p : ascii -> bool) (s : string) : bool :=
  match s with
  | EmptyString => true
  | String c s' => p c && all_chars p s'
  end.

(** What a capturing item promises of its group: characters of its class,
    and at least one of them under [Once] and [Plus]. *)
Definition group_ok (a : Re.atom) (g : string) : Prop :=
  all_chars (Re.cls a) g = true /\
  match Re.rep a with
  | Re.Once | Re.Plus => 1 <= length g
  | _ => True
  end.

(** The layers the extractor can give a pad. *)
Definition extractor_layers (l : option (list string)) : Prop :=
  l = None \/ l = Some ["F.Cu"] \/ l = Some ["B.Cu"] \/ l = Some ["*.Cu"].

(** What the pad pattern promises of the text fields of a record. *)
Definition pad_text_ok (p : pad) : Prop :=
  1 <= length (pad_number p) /\
  all_chars (Re.is_not Re.dquote) (pad_number p) = true /\
  1 <= length (pad_type p) /\ all_chars Re.is_word (pad_type p) = true /\
  1 <= length (pad_shape p) /\ all_chars Re.is_word (pad_shape p) = true /\
  extractor_layers (pad_layers p).

(** A pad whose drill is written with two dots. *)
Definition text_pad_bad_numeral : string :=
  "(pad " ++ DQ ++ "1" ++ DQ
  ++ " thru_hole circle (at 0 0) (size 1.7 1.7) (drill 1.2.3))".

(** A footprint with a text and a line, but no pad and no circle. *)
Definition text_without_primitives : string :=
  "(footprint " ++ DQ ++ "Logo" ++ DQ
  ++ " (fp_text reference REF (at 0 0)) (fp_line (start 0 0) (end 1 1)))".

(** A text field taken by the group [([^\x22]+)]: not empty, no double
    quote. *)
Definition quoted_text_ok (s : string) : Prop :=
  1 <= length s /\ all_chars (Re.is_not Re.dquote) s = true.

(** * Properties *)

(** ** The unit converter *)

Section Rounding.

Open Scope Q_scope.

Lemma Qltb_lt (a b : Q) : Qltb a b = true <-> a < b.
Proof.
  unfold Qltb. rewrite negb_true_iff. split.
  - intro H. apply Qnot_le_lt. intro L.
    apply Qle_bool_iff in L. congruence.
  - intro H. destruct (Qle_bool b a) eqn:E; [|reflexivity].
    apply Qle_bool_iff in E. exfalso. exact (Qlt_not_le _ _ H E).
Qed.



Lemma inject_Z_succ (z : Z) : inject_Z (z + 1) == inject_Z z + 1.
Proof. rewrite inject_Z_plus. reflexivity. Qed.




(** The rounded value is nearest, and even at a tie. *)
Lemma round_half_even_nearest (v : Q) :
  Qabs (v - inject_Z (round_half_even v)) <= 1 # 2 /\
  (Qabs (v - inject_Z (round_half_even v)) == 1 # 2 ->
   Z.even (round_half_even v) = true).
Proof.
  pose proof (Qfloor_le v) as Hlo. pose proof (Qlt_floor v) as Hhi.
  rewrite inject_Z_succ in Hhi.
  unfold round_half_even.
  set (f := Qfloor v) in *.
  destruct (Qcompare (v - inject_Z f) (1 # 2)) eqn:C.
  - apply Qeq_alt in C.
    destruct (Z.even f) eqn:Ev.
    + split; [|auto]. apply Qabs_Qle_condition. split; lra.
    + split.
      * apply Qabs_Qle_condition. rewrite inject_Z_succ. split; lra.
      * intros _. rewrite Z.even_add, Ev. reflexivity.
  - apply Qlt_alt in C. split.
    + apply Qabs_Qle_condition. split; lra.
    + intro E. exfalso. revert E.
      apply Qabs_case; intros; lra.
  - apply Qgt_alt in C. split.
    + apply Qabs_Qle_condition. rewrite inject_Z_succ. split; lra.
    + intro E. exfalso. revert E. rewrite inject_Z_succ.
      apply Qabs_case; intros; lra.
Qed.

(** At the inputs used below the doubles of the program give the values of
    the rational model: at 500 the double product lies just under the tie
    1968.505. *)
Remark doubles_agree_at_samples :
  (exists v, option_map Doubles.double_value
               (option_map Doubles.scaled (hd_error Doubles.samples))
             = Some (Some v) /\ v < 1968.505) /\
  map Doubles.mm_to_easyeda_double Doubles.samples
  = map (fun mm => Some (mm_to_easyeda mm)) [500; 1; 0; 1 # 1000; 17 # 10].
Proof.
  split; [eexists; split; [vm_compute; reflexivity|reflexivity]|].
  vm_compute. reflexivity.
Qed.


End Rounding.

(** ** C8: the unit converter *)




(** Settles the tests on the mount kind once it is known: every comparison
    of two string constants is replaced by its value. *)
Ltac decide_kind :=
  repeat match goal with
         | |- context [String.eqb ?a ?b] =>
             let v := eval vm_compute in (String.eqb a b) in
             match v with
             | true => change (String.eqb a b) with true
             | false => change (String.eqb a b) with false
             end
         end;
  cbv iota beta.

(** ** The emitter: tokens and counter *)

Section Emitter.

Local Opaque mm_to_easyeda gge_id.

Lemma adds_refl (st : conv_state) : adds st st [].
Proof.
  unfold adds. simpl. rewrite app_nil_r, Nat.add_0_r. auto.
Qed.

Lemma adds_trans (a b c : conv_state) (t1 t2 : list shape_token) :
  adds a b t1 -> adds b c t2 -> adds a c (t1 ++ t2).
Proof.
  intros (S1 & C1 & I1) (S2 & C2 & I2). unfold adds.
  rewrite C1 in C2, I2.
  rewrite S2, S1, C2, length_app, <- app_assoc, map_app, I1, I2.
  rewrite seq_app, map_app, Nat.add_assoc. repeat split; reflexivity.
Qed.

Lemma adds_emit (st : conv_state) (tok : string -> shape_token) :
  (forall g, token_id (tok g) = g) ->
  adds st (emit st tok) [tok (gge_id (gge_counter st))].
Proof.
  intro H. unfold adds, emit. simpl. rewrite H, Nat.add_1_r. auto.
Qed.

Lemma bbox_emit (st : conv_state) (tok : string -> shape_token) :
  bbox (emit st tok) = bbox st.
Proof. reflexivity. Qed.

Lemma emit_layer_adds shape_type x y w h number st layer_name :
  exists toks,
    adds st (emit_layer shape_type x y w h number st layer_name) toks /\
    forallb is_pad_token toks = true /\
    Forall (fun t => token_hole_radius t = Some 0%Q) toks /\
    bbox (emit_layer shape_type x y w h number st layer_name) = bbox st.
Proof.
  unfold emit_layer. destruct (str_in layer_name ["F.Cu"; "B.Cu"]).
  - eexists. split; [apply adds_emit; reflexivity|].
    split; [reflexivity|]. split; [|reflexivity].
    constructor; [reflexivity|constructor].
  - exists []. split; [apply adds_refl|]. repeat split; constructor.
Qed.

Lemma fold_emit_layer_adds shape_type x y w h number ls st :
  exists toks,
    adds st (fold_left (emit_layer shape_type x y w h number) ls st) toks /\
    forallb is_pad_token toks = true /\
    Forall (fun t => token_hole_radius t = Some 0%Q) toks /\
    bbox (fold_left (emit_layer shape_type x y w h number) ls st) = bbox st.
Proof.
  revert st. induction ls as [|l ls IH]; intro st; simpl.
  - exists []. split; [apply adds_refl|]. repeat split; constructor.
  - destruct (emit_layer_adds shape_type x y w h number st l)
      as (t1 & A1 & P1 & R1 & B1).
    destruct (IH (emit_layer shape_type x y w h number st l))
      as (t2 & A2 & P2 & R2 & B2).
    exists (t1 ++ t2)%list. split; [exact (adds_trans _ _ _ _ _ A1 A2)|].
    split; [rewrite forallb_app, P1, P2; reflexivity|].
    split; [apply Forall_app; auto|]. congruence.
Qed.

Lemma bbox_extend (st : conv_state) (x y hw hh : Q) :
  bbox (extend st x y hw hh)
  = box_join (bbox st) ((x - hw)%Q, (x + hw)%Q, (y - hh)%Q, (y + hh)%Q).
Proof. reflexivity. Qed.






End Emitter.

(** ** The bounding box and the origin *)

Section BoundingBox.

Local Opaque mm_to_easyeda.










(** The document, when no primitive was converted. *)
Lemma convert_to_easyeda_empty_box (fd : footprint) :
  bbox (run_loops fd) = (PInf, NInf, PInf, NInf) ->
  convert_to_easyeda fd
  = Some (Doc (head_of fd 4000 3000) (canvas_of 4000 3000)
              (shapes (run_loops fd)) layer_table object_table).
Proof.
  intro H. unfold convert_to_easyeda, origin.
  injection H as H1 _ _ _. rewrite H1. reflexivity.
Qed.









End BoundingBox.

(** ** The tokens of one pad *)

Section PadTokens.

Local Opaque mm_to_easyeda gge_id.

(** C1, as the code has it: a through-hole pad whose converted drill,
    [mm_to_easyeda drill], is greater than 0 emits exactly one PAD token,
    plated Y, on layer 11, its hole radius half the converted drill. *)
Theorem thru_hole_pad_token (st : conv_state) (p : pad) :
  pad_type p = "thru_hole" ->
  (0 < mm_to_easyeda (pad_drill p))%Q ->
  shapes (convert_pad st p)
  = (shapes st ++
     [PAD (shape_type_of p)
          (mm_to_easyeda (pad_x p)) (mm_to_easyeda (pad_y p))
          (mm_to_easyeda (pad_width p)) (mm_to_easyeda (pad_height p))
          "11" (pad_number p) (mm_to_easyeda (pad_drill p) / 2)%Q
          (gge_id (gge_counter st)) "Y"])%list /\
  gge_counter (convert_pad st p) = S (gge_counter st).
Proof.
  intros Ht Hd. apply Qltb_lt in Hd.
  unfold convert_pad, resolve_layer. rewrite Ht.
  decide_kind. rewrite Hd. split; reflexivity.
Qed.

Lemma thru_hole_pad_token_witness :
  shapes (convert_pad init_state
            (Pad "1" "thru_hole" "circle" 1 2 (17 # 10) (17 # 10) 1
                 (Some ["*.Cu"])))
  = [PAD "ELLIPSE" (394 # 100) (787 # 100) (669 # 100) (669 # 100) "11" "1"
         ((394 # 100) / 2)%Q "gge1" "Y"] /\
  gge_counter (convert_pad init_state
                 (Pad "1" "thru_hole" "circle" 1 2 (17 # 10) (17 # 10) 1
                      (Some ["*.Cu"]))) = 2.
Proof.
  exact (thru_hole_pad_token init_state
           (Pad "1" "thru_hole" "circle" 1 2 (17 # 10) (17 # 10) 1
                (Some ["*.Cu"]))
           eq_refl eq_refl).
Defined.

(** C1 as stated fails: a through-hole pad with drill 0.001 has a drill
    greater than 0, but the converted drill is 0.00 and nothing is emitted,
    on its own or through the whole conversion. *)
Lemma thru_hole_small_drill_no_token :
  let p := Pad "1" "thru_hole" "circle" 1 2 (17 # 10) (17 # 10) (1 # 1000)
               (Some ["*.Cu"]) in
  pad_type p = "thru_hole" /\ (0 < pad_drill p)%Q /\
  shapes (convert_pad init_state p) = [] /\
  option_map shape (convert_to_easyeda (Footprint "H" "hole" [p] [] []))
  = Some [].
Proof.
  cbv zeta. split; [reflexivity|]. split; [reflexivity|].
  split; vm_compute; reflexivity.
Qed.

(** C2: a connect pad whose layers are exactly F.Cu emits exactly one PAD
    token, on layer 1, not plated, with hole radius 0, whatever its drill. *)
Theorem connect_front_pad_token (st : conv_state) (p : pad) :
  pad_type p = "connect" ->
  pad_layers p = Some ["F.Cu"] ->
  shapes (convert_pad st p)
  = (shapes st ++
     [PAD (shape_type_of p)
          (mm_to_easyeda (pad_x p)) (mm_to_easyeda (pad_y p))
          (mm_to_easyeda (pad_width p)) (mm_to_easyeda (pad_height p))
          "1" (pad_number p) 0%Q (gge_id (gge_counter st)) "N"])%list /\
  gge_counter (convert_pad st p) = S (gge_counter st).
Proof.
  intros Ht Hl.
  unfold convert_pad, resolve_layer, layers_or_empty. rewrite Ht, Hl.
  decide_kind. rewrite andb_false_r. split; reflexivity.
Qed.

Lemma connect_front_pad_token_witness :
  shapes (convert_pad init_state
            (Pad "2" "connect" "rect" 1 2 (17 # 10) (17 # 10) 1
                 (Some ["F.Cu"])))
  = [PAD "RECT" (394 # 100) (787 # 100) (669 # 100) (669 # 100) "1" "2"
         0%Q "gge1" "N"] /\
  gge_counter (convert_pad init_state
                 (Pad "2" "connect" "rect" 1 2 (17 # 10) (17 # 10) 1
                      (Some ["F.Cu"]))) = 2.
Proof.
  exact (connect_front_pad_token init_state
           (Pad "2" "connect" "rect" 1 2 (17 # 10) (17 # 10) 1
                (Some ["F.Cu"]))
           eq_refl eq_refl).
Defined.

(** C10: a connect pad with no layers, or with the layers *.Cu only, emits
    nothing and leaves the counter as it was: the front layer chosen by
    default in the layer rules reaches no token. *)
Theorem connect_pad_without_side_no_token (st : conv_state) (p : pad) :
  pad_type p = "connect" ->
  pad_layers p = None \/ pad_layers p = Some ["*.Cu"] ->
  fst (fst (resolve_layer p (mm_to_easyeda (pad_drill p)))) = "1" /\
  shapes (convert_pad st p) = shapes st /\
  gge_counter (convert_pad st p) = gge_counter st.
Proof.
  intros Ht Hl.
  unfold convert_pad, resolve_layer, layers_or_empty. rewrite Ht.
  decide_kind. rewrite andb_false_r.
  destruct Hl as [-> | ->]; repeat split; reflexivity.
Qed.

Lemma connect_pad_without_side_no_token_witness :
  shapes (convert_pad init_state
            (Pad "3" "connect" "rect" 1 2 (17 # 10) (17 # 10) 0
                 (Some ["*.Cu"]))) = [] /\
  shapes (convert_pad init_state
            (Pad "3" "connect" "rect" 1 2 (17 # 10) (17 # 10) 0 None)) = [].
Proof.
  split.
  - exact (proj1 (proj2 (connect_pad_without_side_no_token init_state
             (Pad "3" "connect" "rect" 1 2 (17 # 10) (17 # 10) 0
                  (Some ["*.Cu"]))
             eq_refl (or_intror eq_refl)))).
  - exact (proj1 (proj2 (connect_pad_without_side_no_token init_state
             (Pad "3" "connect" "rect" 1 2 (17 # 10) (17 # 10) 0 None)
             eq_refl (or_introl eq_refl)))).
Defined.

End PadTokens.

(** ** Text searches *)

Section Text.

Lemma prefix_app (p v : string) : prefix p (p ++ v) = true.
Proof.
  induction p as [|c p IH]; simpl; [destruct v; reflexivity|].
  destruct (ascii_dec c c); [exact IH|congruence].
Qed.

Lemma prefix_split (p s : string) :
  prefix p s = true -> exists v, s = p ++ v.
Proof.
  revert s. induction p as [|c p IH]; intros s H.
  - exists s. reflexivity.
  - destruct s as [|d s]; simpl in H; [discriminate|].
    destruct (ascii_dec c d) as [->|]; [|discriminate].
    destruct (IH s H) as [v ->]. exists v. reflexivity.
Qed.

Lemma contains_eq (pat s : string) :
  contains pat s
  = prefix pat s
    || match s with
       | EmptyString => false
       | String _ s' => contains pat s'
       end.
Proof. destruct s; reflexivity. Qed.

(** [pat in s] holds exactly when [pat] occurs in [s]. *)
Lemma contains_occurs (pat s : string) :
  contains pat s = true <-> occurs pat s.
Proof.
  split.
  - induction s as [|c s IH]; rewrite contains_eq; intro H;
      apply orb_true_iff in H; destruct H as [H|H]; try discriminate.
    + destruct (prefix_split _ _ H) as [v E]. exists EmptyString, v. exact E.
    + destruct (prefix_split _ _ H) as [v E]. exists EmptyString, v. exact E.
    + destruct (IH H) as (u & v & ->). exists (String c u), v. reflexivity.
  - intros (u & v & ->). induction u as [|c u IH].
    + rewrite contains_eq. change (EmptyString ++ pat ++ v) with (pat ++ v).
      rewrite prefix_app. reflexivity.
    + change (String c u ++ pat ++ v) with (String c (u ++ pat ++ v)).
      rewrite contains_eq, IH. apply orb_true_r.
Qed.

Lemma contains_not_occurs (pat s : string) :
  contains pat s = false <-> ~ occurs pat s.
Proof.
  rewrite <- contains_occurs. destruct (contains pat s); split; intro H;
    try reflexivity; try discriminate; try congruence.
Qed.

Lemma length_append (u v : string) : length (u ++ v) = length u + length v.
Proof. induction u as [|c u IH]; simpl; [reflexivity|rewrite IH; reflexivity]. Qed.

(** A slice is a run of consecutive characters of the text: [n] characters
    are passed over and [m] are taken, or fewer at the end of the text. *)
Lemma substring_split (n m : nat) (s : string) :
  exists u v,
    s = u ++ substring n m s ++ v /\
    length u = Nat.min n (length s) /\
    length (substring n m s) = Nat.min m (length s - n).
Proof.
  revert n m. induction s as [|c s IH]; intros n m.
  - exists EmptyString, EmptyString. destruct n, m; simpl; auto.
  - destruct n as [|n].
    + destruct m as [|m].
      * exists EmptyString, (String c s). simpl. auto.
      * destruct (IH 0 m) as (u & v & E & Lu & Lw).
        destruct u; [|simpl in Lu; discriminate].
        exists EmptyString, v. simpl in *. rewrite <- E.
        split; [reflexivity|]. split; [reflexivity|].
        rewrite Lw, Nat.sub_0_r. reflexivity.
    + destruct (IH n m) as (u & v & E & Lu & Lw).
      exists (String c u), v. simpl. rewrite <- E, Lu, Lw. auto.
Qed.

(** The text passed over: [drop]. *)
Lemma drop_app_length (t v : string) : drop (length t) (t ++ v) = v.
Proof. induction t as [|c t IH]; simpl; [destruct v; reflexivity|exact IH]. Qed.

End Text.

(** ** The extractor *)

Section ExtractorFacts.

Lemma collect_Forall2 {A B : Type} (f : A -> option B) (l : list A)
    (r : list B) :
  collect f l = Some r -> Forall2 (fun a b => f a = Some b) l r.
Proof.
  revert r. induction l as [|a l IH]; intros r H; simpl in H.
  - injection H as <-. constructor.
  - destruct (f a) as [b|] eqn:E; [|discriminate].
    destruct (collect f l) as [r'|]; [|discriminate].
    injection H as <-. constructor; [exact E|apply IH; reflexivity].
Qed.

(** Each record of the extractor is built from its match, in order. *)
Lemma parse_pads_matches (content : string) (pads : list pad) :
  parse_pads content = Some pads ->
  Forall2 (fun m p => pad_of_match content m = Some p)
          (Re.finditer pad_pattern content) pads.
Proof. apply collect_Forall2. Qed.

Lemma pad_of_match_fields (content : string) (m : Re.re_match) (p : pad) :
  pad_of_match content m = Some p ->
  py_float (Re.group m 6) = Some (pad_width p) /\
  py_float (Re.group m 7) = Some (pad_height p) /\
  py_float (Re.group m 8) = Some (pad_drill p) /\
  pad_layers p = layers_of_match content m.
Proof.
  unfold pad_of_match.
  destruct (py_float (Re.group m 4)); [|discriminate].
  destruct (py_float (Re.group m 5)); [|discriminate].
  destruct (py_float (Re.group m 6)); [|discriminate].
  destruct (py_float (Re.group m 7)); [|discriminate].
  destruct (py_float (Re.group m 8)); [|discriminate].
  intro H. injection H as <-. simpl. auto.
Qed.

Lemma digits_value_nonneg (s : string) (acc n : Z) :
  (0 <= acc)%Z -> digits_value acc s = Some n -> (0 <= n)%Z.
Proof.
  revert acc. induction s as [|c s IH]; intros acc Ha H; simpl in H.
  - injection H as <-. exact Ha.
  - destruct (Re.is_digit c); [|discriminate].
    apply (IH (10 * acc + Z.of_nat (Re.code c - 48))%Z); [lia|exact H].
Qed.

Lemma float_unsigned_nonneg (s : string) (q : Q) :
  float_unsigned s = Some q -> (0 <= q)%Q.
Proof.
  unfold float_unsigned. destruct (split_dot s) as [ip [fp|]].
  - destruct (length ip + length fp); [discriminate|].
    destruct (digits_value 0 (ip ++ fp)) as [k|] eqn:E; [|discriminate].
    intro H. injection H as <-.
    pose proof (digits_value_nonneg _ _ _ (Z.le_refl 0) E).
    unfold Qle. simpl. lia.
  - destruct ip as [|c ip]; [discriminate|].
    destruct (digits_value 0 (String c ip)) as [n|] eqn:E; [|discriminate].
    intro H. injection H as <-.
    pose proof (digits_value_nonneg _ _ _ (Z.le_refl 0) E).
    unfold Qle. simpl. lia.
Qed.

(** A numeral without a minus sign has a non-negative value. *)
Lemma py_float_nonneg (s : string) (q : Q) :
  no_minus s = true -> py_float s = Some q -> (0 <= q)%Q.
Proof.
  intros Hm H. destruct s as [|c s].
  - apply float_unsigned_nonneg with (1 := H).
  - simpl in Hm, H. destruct (Ascii.eqb c "-"); [discriminate|].
    apply float_unsigned_nonneg with (1 := H).
Qed.

(** C6, as the code has it: the layers of a pad are read off the text from
    the start of its match to 200 characters past its end (or the end of the
    text), the match itself included: F.Cu if it occurs there, else B.Cu,
    else *.Cu, else unset; every record of the extractor carries the layers
    of its match. *)
Theorem layers_from_match_window :
  (forall content m,
     let w := layer_window content m in
     (exists u v,
        content = u ++ w ++ v /\
        length u = Nat.min (Re.m_start m) (length content) /\
        length w = Nat.min (Re.m_end m + 200 - Re.m_start m)
                           (length content - Re.m_start m)) /\
     (occurs "F.Cu" w -> layers_of_match content m = Some ["F.Cu"]) /\
     (~ occurs "F.Cu" w -> occurs "B.Cu" w ->
      layers_of_match content m = Some ["B.Cu"]) /\
     (~ occurs "F.Cu" w -> ~ occurs "B.Cu" w -> occurs "*.Cu" w ->
      layers_of_match content m = Some ["*.Cu"]) /\
     (~ occurs "F.Cu" w -> ~ occurs "B.Cu" w -> ~ occurs "*.Cu" w ->
      layers_of_match content m = None)) /\
  (forall content pads,
     parse_pads content = Some pads ->
     Forall2 (fun m p => pad_layers p = layers_of_match content m)
             (Re.finditer pad_pattern content) pads).
Proof.
  split.
  - intros content m w. split; [apply substring_split|].
    unfold layers_of_match. fold w.
    repeat split; intros;
      repeat match goal with
             | H : occurs _ _ |- _ => apply contains_occurs in H; rewrite H
             | H : ~ occurs _ _ |- _ =>
                 apply contains_not_occurs in H; rewrite H
             end; reflexivity.
  - intros content pads H. apply parse_pads_matches in H.
    induction H as [|m p ms ps Hmp _ IH]; constructor; [|exact IH].
    apply (pad_of_match_fields _ _ _ Hmp).
Qed.

Lemma layers_from_match_window_witness :
  layers_of_match text_pad_named_like_layer
    (Re.Match 0 54 ["F.Cu"; "connect"; "rect"; "0"; "0"; "1"; "1"; "0"])
  = Some ["F.Cu"].
Proof.
  apply (proj1 (proj2 (proj1 layers_from_match_window
                         text_pad_named_like_layer
                         (Re.Match 0 54 ["F.Cu"; "connect"; "rect"; "0"; "0";
                                         "1"; "1"; "0"])))).
  exists ("(pad " ++ DQ),
         (DQ ++ " connect rect (at 0 0) (size 1 1) (drill 0) (layers B.Cu))").
  reflexivity.
Defined.

(** C6 as stated fails: the number of this pad reads F.Cu and its layers
    are B.Cu; the 200 characters after the match give B.Cu, the code gives
    F.Cu, found inside the match. *)
Lemma layers_read_inside_match :
  exists m,
    Re.finditer pad_pattern text_pad_named_like_layer = [m] /\
    layers_after_match text_pad_named_like_layer m = Some ["B.Cu"] /\
    layers_of_match text_pad_named_like_layer m = Some ["F.Cu"] /\
    option_map (map pad_layers) (parse_pads text_pad_named_like_layer)
    = Some [Some ["F.Cu"]].
Proof.
  eexists. split; [vm_compute; reflexivity|].
  split; [|split]; vm_compute; reflexivity.
Qed.

(** C5, as the code has it: the width, height and drill of a record are
    non-negative when the numeral matched for them carries no minus sign (the
    pattern admits one); the drill is forced to 0 for the kind connect, whose
    tokens all have hole radius 0. *)
Theorem pad_sizes_and_effective_drill :
  (forall content pads,
     parse_pads content = Some pads ->
     Forall2 (fun m p =>
                (no_minus (Re.group m 6) = true -> (0 <= pad_width p)%Q) /\
                (no_minus (Re.group m 7) = true -> (0 <= pad_height p)%Q) /\
                (no_minus (Re.group m 8) = true -> (0 <= pad_drill p)%Q))
             (Re.finditer pad_pattern content) pads) /\
  (forall st p,
     pad_type p = "connect" ->
     effective_drill p = 0%Q /\
     exists toks,
       shapes (convert_pad st p) = (shapes st ++ toks)%list /\
       Forall (fun t => token_hole_radius t = Some 0%Q) toks).
Proof.
  split.
  - intros content pads H. apply parse_pads_matches in H.
    induction H as [|m p ms ps Hmp _ IH]; constructor; [|exact IH].
    destruct (pad_of_match_fields _ _ _ Hmp) as (Hw & Hh & Hd & _).
    repeat split; intro Hm; eapply py_float_nonneg; eassumption.
  - intros st p Ht. split.
    + unfold effective_drill, resolve_layer. rewrite Ht. reflexivity.
    + unfold convert_pad, resolve_layer. rewrite Ht.
      decide_kind. rewrite andb_false_r.
      match goal with
      | |- context [fold_left (emit_layer ?a ?b ?c ?d ?e ?f) ?l ?s] =>
          destruct (fold_emit_layer_adds a b c d e f l s)
            as (toks & (S & _) & _ & R & _)
      end.
      exists toks. split; [exact S|exact R].
Qed.

Lemma pad_sizes_and_effective_drill_witness :
  effective_drill (Pad "2" "connect" "rect" 1 2 (17 # 10) (17 # 10) 1
                       (Some ["F.Cu"])) = 0%Q /\
  Forall2 (fun m p =>
             (no_minus (Re.group m 6) = true -> (0 <= pad_width p)%Q) /\
             (no_minus (Re.group m 7) = true -> (0 <= pad_height p)%Q) /\
             (no_minus (Re.group m 8) = true -> (0 <= pad_drill p)%Q))
          (Re.finditer pad_pattern text_pad_named_like_layer)
          [Pad "F.Cu" "connect" "rect" 0 0 1 1 0 (Some ["F.Cu"])].
Proof.
  split.
  - exact (proj1 (proj2 pad_sizes_and_effective_drill init_state
             (Pad "2" "connect" "rect" 1 2 (17 # 10) (17 # 10) 1
                  (Some ["F.Cu"]))
             eq_refl)).
  - exact (proj1 pad_sizes_and_effective_drill text_pad_named_like_layer
             [Pad "F.Cu" "connect" "rect" 0 0 1 1 0 (Some ["F.Cu"])]
             eq_refl).
Defined.

(** C5 as stated fails: the extractor takes a negative width and a negative
    drill from the text, and the drill of a pad of kind smd is not forced
    to 0. *)
Lemma negative_size_and_smd_drill :
  (exists p,
     parse_pads text_pad_negative = Some [p] /\
     pad_type p = "smd" /\
     (pad_width p < 0)%Q /\ (pad_drill p < 0)%Q /\
     ~ (effective_drill p == 0)%Q) /\
  (effective_drill (Pad "1" "smd" "rect" 0 0 1 1 1 None) == 3.94)%Q.
Proof.
  split; [|reflexivity].
  eexists. split; [vm_compute; reflexivity|].
  split; [reflexivity|]. split; [reflexivity|]. split; [reflexivity|].
  discriminate.
Qed.

End ExtractorFacts.

(** ** The output path *)

Section OutputPath.

Lemma find_eq (pat s : string) :
  find pat s
  = if prefix pat s then Some 0
    else match s with
         | EmptyString => None
         | String _ s' => option_map S (find pat s')
         end.
Proof. destruct s; reflexivity. Qed.

Lemma replace_from_eq (old new : string) (skip : nat) (c : ascii)
    (s : string) :
  replace_from old new skip (String c s)
  = match skip with
    | S k => replace_from old new k s
    | O =>
        if prefix old (String c s)
        then new ++ replace_from old new (length old - 1) s
        else String c (replace_from old new 0 s)
    end.
Proof. reflexivity. Qed.

(** The characters of an occurrence are passed over. *)
Lemma replace_from_skip (old new t v : string) :
  replace_from old new (length t) (t ++ v) = replace_from old new 0 v.
Proof.
  induction t as [|c t IH]; [destruct v; reflexivity|].
  simpl length. simpl append. rewrite replace_from_eq. exact IH.
Qed.

Lemma substring_0_app (u v : string) : substring 0 (length u) (u ++ v) = u.
Proof.
  induction u as [|c u IH]; simpl; [destruct v; reflexivity|].
  rewrite IH. reflexivity.
Qed.

Lemma drop_length (t : string) : drop (length t) t = EmptyString.
Proof. induction t as [|c t IH]; simpl; [reflexivity|exact IH]. Qed.

Lemma append_empty_r (t : string) : t ++ EmptyString = t.
Proof. induction t as [|c t IH]; simpl; [reflexivity|rewrite IH; reflexivity]. Qed.

(** [replace] at the first occurrence of a non-empty [old]: the text before
    it is kept, [new] is written, and the replacement goes on after the
    occurrence. *)
Lemma replace_at_find (c : ascii) (old' new s : string) (n : nat) :
  find (String c old') s = Some n ->
  replace (String c old') new s
  = substring 0 n s ++ new
    ++ replace (String c old') new (drop (n + length (String c old')) s).
Proof.
  unfold replace. revert n. induction s as [|d s IH]; intros n H.
  - simpl in H. discriminate.
  - rewrite find_eq in H. rewrite replace_from_eq.
    destruct (prefix (String c old') (String d s)) eqn:P.
    + injection H as <-.
      destruct (prefix_split _ _ P) as [v E].
      simpl in E. injection E as -> ->.
      change (length (String c old') - 1) with (length old' - 0).
      rewrite Nat.sub_0_r, replace_from_skip.
      change (drop (0 + length (String c old')) (String c (old' ++ v)))
        with (drop (length old') (old' ++ v)).
      rewrite drop_app_length. reflexivity.
    + destruct (find (String c old') s) as [k|] eqn:F; [|discriminate].
      injection H as <-. rewrite (IH k eq_refl). reflexivity.
Qed.

(** With no occurrence of [old], [replace] returns the text as it is. *)
Lemma replace_no_find (c : ascii) (old' new s : string) :
  find (String c old') s = None -> replace (String c old') new s = s.
Proof.
  unfold replace. induction s as [|d s IH]; intro H; [reflexivity|].
  rewrite find_eq in H. rewrite replace_from_eq.
  destruct (prefix (String c old') (String d s)); [discriminate|].
  destruct (find (String c old') s); [discriminate|].
  rewrite (IH eq_refl). reflexivity.
Qed.

(** C9, as the code has it: with the output argument omitted, the output
    path is the input path with every occurrence of .kicad_mod, taken from
    left to right, replaced by _easyeda.json (a path without one is returned
    as it is); when the first occurrence is the trailing extension, that is
    the path with its extension replaced. *)
Theorem output_path_replaces_occurrences :
  (forall prog input_file,
     main_paths [prog; input_file]
     = Some (input_file, replace ".kicad_mod" "_easyeda.json" input_file)) /\
  (forall s n,
     find ".kicad_mod" s = Some n ->
     replace ".kicad_mod" "_easyeda.json" s
     = substring 0 n s ++ "_easyeda.json"
       ++ replace ".kicad_mod" "_easyeda.json"
            (drop (n + length ".kicad_mod") s)) /\
  (forall s,
     find ".kicad_mod" s = None ->
     replace ".kicad_mod" "_easyeda.json" s = s) /\
  (forall prog base,
     find ".kicad_mod" (base ++ ".kicad_mod") = Some (length base) ->
     main_paths [prog; base ++ ".kicad_mod"]
     = Some (base ++ ".kicad_mod", base ++ "_easyeda.json")).
Proof.
  split; [reflexivity|].
  split; [intros s n; apply replace_at_find|].
  split; [intros s; apply replace_no_find|].
  intros prog base H. unfold main_paths.
  rewrite (replace_at_find _ _ _ _ _ H).
  rewrite substring_0_app, <- length_append, drop_length. reflexivity.
Qed.

Lemma output_path_replaces_occurrences_witness :
  main_paths ["kicad_to_easyeda.py"; "lib/MountingHole_2.5mm.kicad_mod"]
  = Some ("lib/MountingHole_2.5mm.kicad_mod",
          "lib/MountingHole_2.5mm_easyeda.json").
Proof.
  exact (proj2 (proj2 (proj2 output_path_replaces_occurrences))
           "kicad_to_easyeda.py" "lib/MountingHole_2.5mm" eq_refl).
Defined.

(** C9 as stated fails: .kicad_mod is also replaced inside the name of a
    directory, where the extension alone should change. *)
Lemma output_path_touches_directory :
  main_paths ["kicad_to_easyeda.py"; "parts.kicad_mod.d/hole.kicad_mod"]
  = Some ("parts.kicad_mod.d/hole.kicad_mod",
          "parts_easyeda.json.d/hole_easyeda.json") /\
  replace_extension "parts.kicad_mod.d/hole.kicad_mod"
  = Some "parts.kicad_mod.d/hole_easyeda.json" /\
  Some "parts_easyeda.json.d/hole_easyeda.json"
  <> replace_extension "parts.kicad_mod.d/hole.kicad_mod".
Proof.
  split; [reflexivity|]. split; [reflexivity|]. discriminate.
Qed.

End OutputPath.

(** * Further properties *)

(** ** The emitter: number and form of the tokens *)

Section EmitterTokens.

Local Opaque mm_to_easyeda gge_id.










End EmitterTokens.

(** ** The identifiers are distinct *)

Section Identifiers.






End Identifiers.

(** ** Regular expression matching *)

Section RegexFacts.

Lemma length_drop (k : nat) (s : string) : length (drop k s) = length s - k.
Proof.
  revert s. induction k as [|k IH]; intros [|c s]; simpl; auto.
Qed.

Lemma run_length_le (p : ascii -> bool) (s : string) :
  Re.run_length p s <= length s.
Proof.
  induction s as [|c s IH]; simpl; [lia|]. destruct (p c); simpl; lia.
Qed.

(** The first [j] characters of a run are in the class. *)
Lemma run_prefix (p : ascii -> bool) (j : nat) (s : string) :
  j <= Re.run_length p s ->
  all_chars p (substring 0 j s) = true /\ length (substring 0 j s) = j.
Proof.
  revert s. induction j as [|j IH]; intros s H.
  - destruct s; simpl; auto.
  - destruct s as [|c s]; simpl in H; [lia|].
    destruct (p c) eqn:E; [|lia].
    destruct (IH s (le_S_n _ _ H)) as [A L].
    simpl. rewrite E, A, L. auto.
Qed.

Lemma backoff_spec (k lo : nat) (s : string)
    (cont : string -> option (list string * nat)) j res :
  Re.backoff k lo s cont = Some (j, res) ->
  lo <= j <= k /\ cont (drop j s) = Some res.
Proof.
  induction k as [|k IH]; cbn [Re.backoff].
  - destruct (Nat.ltb_spec 0 lo) as [L|L]; [discriminate|].
    destruct (cont (drop 0 s)) eqn:E; [|discriminate].
    intro H. injection H as <- <-. split; [lia|exact E].
  - destruct (Nat.ltb_spec (S k) lo) as [L|L]; [discriminate|].
    destruct (cont (drop (S k) s)) eqn:E.
    + intro H. injection H as <- <-. split; [lia|exact E].
    + intro H. destruct (IH H) as [B C]. split; [lia|exact C].
Qed.

Lemma bounds_le (q : Re.quant) (run : nat) : snd (Re.bounds q run) <= run.
Proof.
  destruct q; cbn [Re.bounds snd]; try apply Nat.le_min_r; apply Nat.le_refl.
Qed.

(** A match lies inside the text, and every group is made of characters of
    its class, at least one under [+]. *)
Lemma match_here_spec (r : Re.regex) (s : string) (gs : list string)
    (n : nat) :
  Re.match_here r s = Some (gs, n) ->
  n <= length s /\ Forall2 group_ok (filter Re.cap r) gs.
Proof.
  revert s gs n. induction r as [|a r IH]; intros s gs n H.
  - simpl in H. injection H as <- <-. split; [lia|constructor].
  - cbn [Re.match_here] in H.
    pose proof (bounds_le (Re.rep a) (Re.run_length (Re.cls a) s)) as Hb.
    destruct (Re.bounds (Re.rep a) (Re.run_length (Re.cls a) s))
      as [lo hi] eqn:Eb.
    simpl in Hb.
    destruct (Re.backoff hi lo s (Re.match_here r)) as [[j [gs' n']]|] eqn:B;
      [|discriminate].
    injection H as <- <-.
    destruct (backoff_spec _ _ _ _ _ _ B) as [[Hlo Hhi] C].
    destruct (IH _ _ _ C) as [Ln F].
    rewrite length_drop in Ln.
    pose proof (run_length_le (Re.cls a) s) as Hr.
    split; [lia|].
    cbn [filter]. destruct (Re.cap a); [|exact F].
    constructor; [|exact F].
    destruct (run_prefix (Re.cls a) j s (ltac:(lia))) as [A L].
    split; [exact A|]. rewrite L.
    destruct (Re.rep a); cbn [Re.bounds] in Eb; injection Eb as <- <-; auto.
Qed.

(** A pattern that begins with a literal matches only a text that begins
    with it. *)
Lemma match_here_lit (l : string) (r : Re.regex) (s : string) res :
  Re.match_here (Re.lit l ++ r)%list s = Some res -> exists v, s = l ++ v.
Proof.
  revert s res. induction l as [|c l IH]; intros s res H.
  - exists s. reflexivity.
  - cbn [Re.lit app Re.match_here Re.rep Re.cls Re.cap Re.bounds] in H.
    destruct (Re.backoff (Nat.min 1 (Re.run_length (Ascii.eqb c) s)) 1 s
                (Re.match_here (Re.lit l ++ r)%list))
      as [[j [gs' n']]|] eqn:B; [|discriminate].
    destruct (backoff_spec _ _ _ _ _ _ B) as [[Hlo Hhi] C].
    destruct s as [|d s]; [simpl in Hhi; lia|].
    simpl in Hhi. destruct (Ascii.eqb c d) eqn:E; [|simpl in Hhi; lia].
    apply Ascii.eqb_eq in E. subst d.
    assert (j = 1) by lia. subst j. simpl in C.
    destruct (IH _ _ C) as [v ->]. exists v. reflexivity.
Qed.

(** Each match of [finditer] is a match of the pattern at its start
    position, and it is not empty. *)
Lemma finditer_from_spec (r : Re.regex) (s : string) (pos skip : nat)
    (m : Re.re_match) :
  In m (Re.finditer_from r pos skip s) ->
  exists u t n,
    s = u ++ t /\
    Re.m_start m = pos + length u /\
    Re.match_here r t = Some (Re.m_groups m, S n) /\
    Re.m_end m = Re.m_start m + S n.
Proof.
  revert pos skip. induction s as [|c s IH]; intros pos skip H.
  - destruct H.
  - assert (Hrec : forall k,
              In m (Re.finditer_from r (S pos) k s) ->
              exists u t n,
                String c s = u ++ t /\
                Re.m_start m = pos + length u /\
                Re.match_here r t = Some (Re.m_groups m, S n) /\
                Re.m_end m = Re.m_start m + S n).
    { intros k Hk. destruct (IH _ _ Hk) as (u & t & n & -> & Hs & Hm & He).
      exists (String c u), t, n. simpl. repeat split; auto; lia. }
    cbn [Re.finditer_from] in H. destruct skip as [|k]; [|exact (Hrec _ H)].
    destruct (Re.match_here r (String c s)) as [[gs [|n]]|] eqn:E;
      try exact (Hrec _ H).
    destruct H as [<-|H]; [|exact (Hrec _ H)].
    exists EmptyString, (String c s), n. simpl.
    repeat split; auto; lia.
Qed.

End RegexFacts.

(** ** The extractor: records and failures *)

Section ExtractorRecords.

Lemma collect_length {A B : Type} (f : A -> option B) (l : list A)
    (r : list B) :
  collect f l = Some r -> List.length r = List.length l.
Proof.
  intro H. apply collect_Forall2 in H.
  induction H; simpl; [reflexivity|rewrite IHForall2; reflexivity].
Qed.

Lemma collect_None {A B : Type} (f : A -> option B) (l : list A) :
  collect f l = None <-> exists a, In a l /\ f a = None.
Proof.
  induction l as [|a l IH]; simpl.
  - split; [discriminate|intros (a & [] & _)].
  - destruct (f a) as [b|] eqn:E.
    + destruct (collect f l) as [r|]; simpl.
      * split; [discriminate|]. intros (x & [<-|Hx] & Hf); [congruence|].
        assert (N : @None (list B) = None) by reflexivity.
        destruct IH as [_ IH]. discriminate IH. exists x. auto.
      * split; [|reflexivity]. intros _.
        destruct IH as [IH _]. destruct (IH eq_refl) as (x & Hx & Hf).
        exists x. auto.
    + split; [|reflexivity]. intros _. exists a. auto.
Qed.

Lemma Forall2_In_r {A B : Type} (R : A -> B -> Prop) (l : list A)
    (r : list B) :
  Forall2 R l r -> forall b, In b r -> exists a, In a l /\ R a b.
Proof.
  induction 1 as [|a b l r Hab _ IH]; intros x Hx; [destruct Hx|].
  destruct Hx as [<-|Hx]; [exists a; simpl; auto|].
  destruct (IH _ Hx) as (a' & Ha & Hr). exists a'. simpl. auto.
Qed.

Lemma pad_pattern_groups :
  filter Re.cap pad_pattern
  = [Re.Atom (Re.is_not Re.dquote) Re.Plus true;
     Re.Atom Re.is_word Re.Plus true; Re.Atom Re.is_word Re.Plus true;
     Re.Atom Re.is_num Re.Plus true; Re.Atom Re.is_num Re.Plus true;
     Re.Atom Re.is_num Re.Plus true; Re.Atom Re.is_num Re.Plus true;
     Re.Atom Re.is_num Re.Plus true].
Proof. reflexivity. Qed.

(** A match of the pad pattern has eight groups: a number without a double
    quote, two words, five numerals, none of them empty. *)
Lemma pad_match_groups (content : string) (m : Re.re_match) :
  In m (Re.finditer pad_pattern content) ->
  exists g1 g2 g3 g4 g5 g6 g7 g8,
    Re.m_groups m = [g1; g2; g3; g4; g5; g6; g7; g8] /\
    group_ok (Re.Atom (Re.is_not Re.dquote) Re.Plus true) g1 /\
    group_ok (Re.Atom Re.is_word Re.Plus true) g2 /\
    group_ok (Re.Atom Re.is_word Re.Plus true) g3 /\
    Re.m_start m < Re.m_end m <= length content.
Proof.
  intro H. apply finditer_from_spec in H.
  destruct H as (u & t & n & -> & Hs & Hm & He).
  destruct (match_here_spec _ _ _ _ Hm) as [Ln F].
  rewrite pad_pattern_groups in F.
  repeat match goal with
         | H : Forall2 _ (_ :: _) _ |- _ =>
             inversion H; clear H; subst
         | H : Forall2 _ [] _ |- _ => inversion H; clear H; subst
         end.
  do 8 eexists. split; [reflexivity|].
  do 3 (split; [assumption|]). rewrite length_append. lia.
Qed.

Lemma layers_of_match_cases (content : string) (m : Re.re_match) :
  extractor_layers (layers_of_match content m).
Proof.
  unfold layers_of_match, extractor_layers.
  destruct (contains "F.Cu" _); [auto|].
  destruct (contains "B.Cu" _); [auto|].
  destruct (contains "*.Cu" _); auto.
Qed.

Lemma pad_of_match_text (content : string) (m : Re.re_match) (p : pad) :
  pad_of_match content m = Some p ->
  pad_number p = Re.group m 1 /\ pad_type p = Re.group m 2 /\
  pad_shape p = Re.group m 3.
Proof.
  unfold pad_of_match.
  destruct (py_float (Re.group m 4)); [|discriminate].
  destruct (py_float (Re.group m 5)); [|discriminate].
  destruct (py_float (Re.group m 6)); [|discriminate].
  destruct (py_float (Re.group m 7)); [|discriminate].
  destruct (py_float (Re.group m 8)); [|discriminate].
  intro H. injection H as <-. simpl. auto.
Qed.

(** X4: in every record of the extractor the number is not empty and holds
    no double quote, the kind and the shape are non-empty words, and the
    layers are absent or exactly one of F.Cu, B.Cu, *.Cu. *)
Theorem extracted_pad_text (content : string) (pads : list pad) :
  parse_pads content = Some pads -> Forall pad_text_ok pads.
Proof.
  intro H. apply parse_pads_matches in H. apply Forall_forall. intros p Hp.
  destruct (Forall2_In_r _ _ _ H p Hp) as (m & Hm & Hmp).
  destruct (pad_match_groups _ _ Hm)
    as (g1 & g2 & g3 & g4 & g5 & g6 & g7 & g8 & G & [A1 L1] & [A2 L2]
        & [A3 L3] & _).
  destruct (pad_of_match_text _ _ _ Hmp) as (En & Et & Es).
  destruct (pad_of_match_fields _ _ _ Hmp) as (_ & _ & _ & El).
  unfold pad_text_ok. rewrite En, Et, Es, El.
  unfold Re.group. rewrite G. simpl in *.
  repeat split; auto. apply layers_of_match_cases.
Qed.

Lemma extracted_pad_text_witness :
  Forall pad_text_ok [Pad "F.Cu" "connect" "rect" 0 0 1 1 0 (Some ["F.Cu"])].
Proof.
  exact (extracted_pad_text text_pad_named_like_layer
           [Pad "F.Cu" "connect" "rect" 0 0 1 1 0 (Some ["F.Cu"])]
           eq_refl).
Defined.

(** X5: the extraction of the pads fails exactly when, in some match, one
    of the five numerals is not a number for [float] (two dots, a minus sign
    not in front, no digit); otherwise there is one record per match. *)
Theorem parse_pads_all_or_nothing (content : string) :
  (parse_pads content = None <->
   exists m k,
     In m (Re.finditer pad_pattern content) /\ In k [4; 5; 6; 7; 8] /\
     py_float (Re.group m k) = None) /\
  (forall pads,
     parse_pads content = Some pads ->
     List.length pads = List.length (Re.finditer pad_pattern content)).
Proof.
  split; [|intros pads; apply collect_length].
  unfold parse_pads. rewrite collect_None. split.
  - intros (m & Hm & Hf). exists m. unfold pad_of_match in Hf.
    destruct (py_float (Re.group m 4)) eqn:E4;
      [|exists 4; split; [exact Hm|split; [cbn [In]; tauto|assumption]]].
    destruct (py_float (Re.group m 5)) eqn:E5;
      [|exists 5; split; [exact Hm|split; [cbn [In]; tauto|assumption]]].
    destruct (py_float (Re.group m 6)) eqn:E6;
      [|exists 6; split; [exact Hm|split; [cbn [In]; tauto|assumption]]].
    destruct (py_float (Re.group m 7)) eqn:E7;
      [|exists 7; split; [exact Hm|split; [cbn [In]; tauto|assumption]]].
    destruct (py_float (Re.group m 8)) eqn:E8;
      [discriminate|exists 8; split; [exact Hm|split; [cbn [In]; tauto|assumption]]].
  - intros (m & k & Hm & Hk & Hf). exists m. split; [exact Hm|].
    unfold pad_of_match. cbn [In] in Hk.
    destruct Hk as [<-|[<-|[<-|[<-|[<-|[]]]]]]; rewrite Hf;
      repeat match goal with
             | |- context [match ?x with Some _ => _ | None => _ end] =>
                 destruct x
             end; reflexivity.
Qed.

Lemma parse_pads_all_or_nothing_witness :
  parse_pads text_pad_bad_numeral = None.
Proof.
  apply (proj1 (parse_pads_all_or_nothing text_pad_bad_numeral)).
  exists (Re.Match 0 63 ["1"; "thru_hole"; "circle"; "0"; "0"; "1.7"; "1.7";
                         "1.2.3"]), 8.
  split; [vm_compute; left; reflexivity|].
  split; [cbn [In]; tauto|reflexivity].
Defined.

End ExtractorRecords.

(** ** From the text to the document *)

Section TextToDocument.

Variable float_sqrt : Q -> Q.






Lemma finditer_lit_empty (l : string) (r : Re.regex) (content : string) :
  ~ occurs l content -> Re.finditer (Re.lit l ++ r)%list content = [].
Proof.
  intro Hn. destruct (Re.finditer (Re.lit l ++ r)%list content) as [|m ms] eqn:E;
    [reflexivity|].
  exfalso. apply Hn.
  assert (Hin : In m (Re.finditer (Re.lit l ++ r)%list content))
    by (rewrite E; left; reflexivity).
  apply finditer_from_spec in Hin.
  destruct Hin as (u & t & n & -> & _ & Hm & _).
  destruct (match_here_lit _ _ _ _ Hm) as [v ->].
  exists u, v. reflexivity.
Qed.

(** X7: a text in which neither "(pad" nor "(fp_circle" occurs is parsed
    without error into a footprint with no pad and no circle, and converted
    into a document with an empty shape array and the origin (4000, 3000). *)
Theorem text_without_primitives_converts (content : string) :
  ~ occurs "(pad" content -> ~ occurs "(fp_circle" content ->
  exists fd doc,
    parse_kicad_footprint float_sqrt content = Some fd /\
    fp_pads fd = [] /\ fp_circles fd = [] /\
    convert_to_easyeda fd = Some doc /\
    shape doc = [] /\
    head_x (head doc) = 4000%Z /\ head_y (head doc) = 3000%Z.
Proof.
  intros Hp Hc.
  unfold parse_kicad_footprint, parse_pads, parse_circles.
  unfold pad_pattern, circle_pattern.
  rewrite (finditer_lit_empty _ _ _ Hp), (finditer_lit_empty _ _ _ Hc).
  cbn [collect]. eexists. eexists. split; [reflexivity|].
  split; [reflexivity|]. split; [reflexivity|].
  split; [apply convert_to_easyeda_empty_box; reflexivity|].
  repeat split.
Qed.

End TextToDocument.


Lemma text_without_primitives_converts_witness :
  exists fd doc,
    parse_kicad_footprint (fun q => q) text_without_primitives = Some fd /\
    fp_pads fd = [] /\ fp_circles fd = [] /\
    convert_to_easyeda fd = Some doc /\
    shape doc = [] /\
    head_x (head doc) = 4000%Z /\ head_y (head doc) = 3000%Z.
Proof.
  apply (text_without_primitives_converts (fun q => q)
           text_without_primitives);
    apply contains_not_occurs; vm_compute; reflexivity.
Defined.

(** ** The output path and the input path *)

Section OutputOverInput.





End OutputOverInput.

(** ** More on the unit converter *)

Section Converter.

Open Scope Q_scope.

Lemma Qabs_half (x : Q) : Qabs x <= 1 # 2 <-> - (1 # 2) <= x <= 1 # 2.
Proof. apply Qabs_Qle_condition. Qed.

(** Only one integer is nearest to [v] with ties to even. *)
Lemma round_half_even_unique (v : Q) (k : Z) :
  Qabs (v - inject_Z k) <= 1 # 2 ->
  (Qabs (v - inject_Z k) == 1 # 2 -> Z.even k = true) ->
  round_half_even v = k.
Proof.
  intros Hk Ek.
  destruct (round_half_even_nearest v) as [Hr Er].
  set (r := round_half_even v) in *.
  apply Qabs_half in Hk. apply Qabs_half in Hr.
  assert (D1 : inject_Z (r - k) <= 1).
  { unfold Zminus. rewrite inject_Z_plus, inject_Z_opp. lra. }
  assert (D2 : inject_Z (k - r) <= 1).
  { unfold Zminus. rewrite inject_Z_plus, inject_Z_opp. lra. }
  change 1 with (inject_Z 1) in D1, D2.
  rewrite <- Zle_Qle in D1, D2.
  destruct (Z.eq_dec r k) as [E|N]; [exact E|exfalso].
  assert (C : (r = k + 1 \/ k = r + 1)%Z) by lia.
  destruct C as [C|C].
  - assert (A1 : v - inject_Z r == - (1 # 2)).
    { rewrite C, inject_Z_succ in Hr |- *. lra. }
    assert (A2 : v - inject_Z k == 1 # 2).
    { rewrite C, inject_Z_succ in Hr. lra. }
    assert (E1 : Z.even r = true).
    { apply Er. rewrite A1. reflexivity. }
    assert (E2 : Z.even k = true).
    { apply Ek. rewrite A2. reflexivity. }
    rewrite C, Z.even_add, E2 in E1. discriminate E1.
  - assert (A1 : v - inject_Z k == - (1 # 2)).
    { rewrite C, inject_Z_succ in Hk |- *. lra. }
    assert (A2 : v - inject_Z r == 1 # 2).
    { rewrite C, inject_Z_succ in Hk. lra. }
    assert (E1 : Z.even k = true).
    { apply Ek. rewrite A1. reflexivity. }
    assert (E2 : Z.even r = true).
    { apply Er. rewrite A2. reflexivity. }
    rewrite C, Z.even_add, E2 in E1. discriminate E1.
Qed.

Lemma round_half_even_opp (v w : Q) :
  w == - v -> round_half_even w = (- round_half_even v)%Z.
Proof.
  intro E. destruct (round_half_even_nearest v) as [Hr Er].
  assert (A : w - inject_Z (- round_half_even v)
              == - (v - inject_Z (round_half_even v))).
  { rewrite inject_Z_opp, E. ring. }
  apply round_half_even_unique.
  - rewrite A, Qabs_opp. exact Hr.
  - rewrite A, Qabs_opp. intro H. rewrite Z.even_opp. exact (Er H).
Qed.

(** X9: the converter is odd: a mirrored length converts to the mirrored
    value. *)
Theorem mm_to_easyeda_opp (mm : Q) :
  mm_to_easyeda (- mm) = - mm_to_easyeda mm.
Proof.
  unfold mm_to_easyeda, py_round2.
  rewrite (round_half_even_opp (mm * (393701 # 10000) / 10 * 100)).
  - reflexivity.
  - field.
Qed.



End Converter.



(** ** The bounding box of non-negative sizes *)

Section BoxOrder.

Local Opaque mm_to_easyeda.





End BoxOrder.

(** ** The name and the description *)

Section NameAndDescription.

Variable float_sqrt : Q -> Q.

Lemma search_quoted (l : string) (r1 r2 : Re.regex) (content : string)
    (m : Re.re_match) :
  filter Re.cap (Re.lit l ++ r1)%list = [] ->
  filter Re.cap r2 = [] ->
  Re.search ((Re.lit l ++ r1)
             ++ [Re.Atom (Re.is_not Re.dquote) Re.Plus true] ++ r2)%list
            content = Some m ->
  quoted_text_ok (Re.group m 1) /\ occurs l content.
Proof.
  intros C1 C2 H. unfold Re.search in H.
  destruct (Re.finditer _ content) as [|m' ms] eqn:E; [discriminate|].
  injection H as ->.
  assert (Hin : In m (Re.finditer
                        ((Re.lit l ++ r1)
                         ++ [Re.Atom (Re.is_not Re.dquote) Re.Plus true]
                         ++ r2)%list content))
    by (rewrite E; left; reflexivity).
  apply finditer_from_spec in Hin.
  destruct Hin as (u & t & n & -> & _ & Hm & _).
  split.
  - destruct (match_here_spec _ _ _ _ Hm) as [_ F].
    rewrite (filter_app Re.cap (Re.lit l ++ r1)%list), C1 in F.
    rewrite (filter_app Re.cap [_] r2), C2 in F. cbn in F.
    inversion F as [|? g ? gs [A L] F' ]; subst. inversion F'; subst.
    unfold Re.group. rewrite <- H1. split; [exact L|exact A].
  - rewrite <- app_assoc in Hm.
    destruct (match_here_lit _ _ _ _ Hm) as [v ->].
    exists u, v. reflexivity.
Qed.

(** X13: the name of a parsed footprint is empty when the name pattern
    finds nothing, in particular when the word footprint does not occur in
    the text; otherwise it is not empty and holds no double quote.  The same
    holds of the description and the text "(descr". *)
Theorem extracted_name_and_description (content : string) (fd : footprint) :
  parse_kicad_footprint float_sqrt content = Some fd ->
  (fp_name fd = EmptyString \/ quoted_text_ok (fp_name fd)) /\
  (~ occurs "footprint" content -> fp_name fd = EmptyString) /\
  (fp_description fd = EmptyString \/ quoted_text_ok (fp_description fd)) /\
  (~ occurs "(descr" content -> fp_description fd = EmptyString).
Proof.
  unfold parse_kicad_footprint.
  destruct (parse_pads content) as [pads|]; [|discriminate].
  destruct (parse_circles float_sqrt content) as [circles|]; [|discriminate].
  intro H. injection H as <-. cbn [fp_name fp_description].
  assert (N : forall m, Re.search name_pattern content = Some m ->
                        quoted_text_ok (Re.group m 1)
                        /\ occurs "footprint" content).
  { intros m Hm.
    apply (search_quoted "footprint" (Re.spaces1 ++ Re.quote)%list Re.quote
             content m);
      [reflexivity|reflexivity|].
    rewrite <- Hm. unfold name_pattern. rewrite <- !app_assoc. reflexivity. }
  assert (D : forall m, Re.search desc_pattern content = Some m ->
                        quoted_text_ok (Re.group m 1)
                        /\ occurs "(descr" content).
  { intros m Hm.
    apply (search_quoted "(descr" (Re.spaces1 ++ Re.quote)%list
             (Re.quote ++ Re.lit ")")%list content m);
      [reflexivity|reflexivity|].
    rewrite <- Hm. unfold desc_pattern. rewrite <- !app_assoc. reflexivity. }
  destruct (Re.search name_pattern content) as [mn|];
    destruct (Re.search desc_pattern content) as [md|];
    repeat split; auto;
    try (right; apply (N _ eq_refl)); try (right; apply (D _ eq_refl));
    intro Hn; exfalso; apply Hn;
    try apply (N _ eq_refl); try apply (D _ eq_refl).
Qed.

End NameAndDescription.

Lemma extracted_name_and_description_witness :
  quoted_text_ok "Logo".
Proof.
  destruct (extracted_name_and_description (fun q => q)
              text_without_primitives
              (Footprint "Logo" EmptyString [] [] []) eq_refl)
    as ([H|H] & _); [discriminate H|exact H].
Defined.
